(** * euchre/model: the card, deck and hand types of a game of Euchre

    A shallow embedding of [euchre/model.py] and the properties of its
    suit colours, symbol tables, card construction, deck catalogue,
    shuffling and hand parsing.

    Python values are modelled as follows.
    - [enum.IntEnum] classes are inductive types with a [value] function
      into [Z]; arithmetic on a member is arithmetic on its value.
    - [str] is [string]; iterating a [str] yields its one-character strings.
    - [dict] with [str] keys is a [gmap string _]; a failed subscript
      raises [KeyError].
    - [list] objects are mutable and shared: they live in a heap and are
      passed around by reference.
    - exceptions are the [Raise] branch of a result type. *)

From Stdlib Require Import ZArith.
From stdpp Require Import gmap strings list fin_maps pretty.

Open Scope string_scope.

(** ** Exceptions and results *)

Inductive exn : Type :=
  | KeyError (key : string)
  | ValueError (msg : string)
  | TypeError (msg : string)
  | IndexError
  | DanglingReference.

Inductive result (A : Type) : Type :=
  | Ok (a : A)
  | Raise (e : exn).

Arguments Ok {A} a.
Arguments Raise {A} e.

Definition result_bind {A B} (r : result A) (k : A -> result B) : result B :=
  match r with
  | Ok a => k a
  | Raise e => Raise e
  end.

Declare Scope result_scope.
Delimit Scope result_scope with result.
Notation "x <~ r ; k" := (result_bind r (fun x => k))
  (at level 100, r at next level, right associativity) : result_scope.

(** A list comprehension [[f(x) for x in xs]] whose body may raise: the
    elements are evaluated left to right and the first exception aborts
    the comprehension. *)
Fixpoint list_comp {A B} (f : A -> result B) (xs : list A) : result (list B) :=
  match xs with
  | [] => Ok []
  | x :: xs' =>
      (y <~ f x; ys <~ list_comp f xs'; Ok (y :: ys))%result
  end.

(** ** Python built-ins used by the module *)

(** Iterating a [str] yields one-character strings. *)
Fixpoint str_iter (s : string) : list string :=
  match s with
  | EmptyString => []
  | String c s' => String c EmptyString :: str_iter s'
  end.

(** [range(a, b)] over the integers. *)
Definition range (a b : Z) : list Z := seqZ a (b - a).

(** [dict(pairs)]: later pairs overwrite earlier ones with the same key. *)
Definition dict {V} (pairs : list (string * V)) : gmap string V :=
  foldl (fun m kv => <[kv.1 := kv.2]> m) ∅ pairs.

(** [d[k]]. *)
Definition dict_getitem {V} (d : gmap string V) (k : string) : result V :=
  match d !! k with
  | Some v => Ok v
  | None => Raise (KeyError k)
  end.

(** [sep.join(parts)]. *)
Definition str_join (sep : string) (parts : list string) : string :=
  String.concat sep parts.

(** ** Color and Suit *)

Module Color.
Inductive t : Type := BLACK | RED.

Definition value (c : t) : Z :=
  match c with
  | BLACK => 1
  | RED => 2
  end.
End Color.

Module Suit.
Inductive t : Type := CLUBS | DIAMONDS | HEARTS | SPADES.

Definition value (s : t) : Z :=
  match s with
  | CLUBS => 1
  | DIAMONDS => 2
  | HEARTS => 3
  | SPADES => 4
  end.

(** Iterating the enum class yields its members in definition order. *)
Definition members : list t := [CLUBS; DIAMONDS; HEARTS; SPADES].

(** [Color.BLACK if self % 4 <= 1 else Color.RED] *)
Definition color (self : t) : Color.t :=
  if (value self mod 4 <=? 1)%Z then Color.BLACK else Color.RED.
End Suit.

#[global] Instance Color_eq_dec : EqDecision Color.t.
Proof. solve_decision. Defined.

#[global] Instance Suit_eq_dec : EqDecision Suit.t.
Proof. solve_decision. Defined.

(** ** Symbol tables *)

Definition RANKS_STR : string := "9TJQKA".

Definition RANKS : gmap string Z := dict (zip (str_iter RANKS_STR) (range 9 15)).

Definition SUITS_STR : string := "CDHS".

Definition SUITS : gmap string Suit.t := dict (zip (str_iter SUITS_STR) Suit.members).

(** ** Sequences accepted by [Card.from_pair]

    The argument is a two character [str] or a tuple or list of tokens;
    both support [len] and unpacking with [*]. *)

Inductive pyseq : Type :=
  | PyStr (s : string)
  | PyTuple (items : list string).

Definition len (x : pyseq) : nat :=
  match x with
  | PyStr s => String.length s
  | PyTuple items => length items
  end.

Definition unpack (x : pyseq) : list string :=
  match x with
  | PyStr s => str_iter s
  | PyTuple items => items
  end.

(** [itertools.product(a, b)] for two strings: tuples with the first
    component varying slowest. *)
Definition itertools_product (a b : string) : list pyseq :=
  flat_map (fun x => map (fun y => PyTuple [x; y]) (str_iter b)) (str_iter a).

(** ** Card *)

Module Card.
Record t : Type := mk { _rank : Z; _suit : Suit.t; _str : string }.

(** [Card(rank, suit)]: both subscripts may raise [KeyError]; the rank
    is looked up first. *)
Definition __init__ (rank suit : string) : result t :=
  (r <~ dict_getitem RANKS rank;
   s <~ dict_getitem SUITS suit;
   Ok {| _rank := r; _suit := s; _str := rank ++ suit |})%result.

Definition from_pair (card : pyseq) : result t :=
  if decide (len card ≠ 2) then
    Raise (ValueError ("Expects card to be two items; got " ++ pretty (len card)))
  else
    match unpack card with
    | [rank; suit] => __init__ rank suit
    | _ => Raise (TypeError "__init__() takes 3 positional arguments")
    end.

Definition __str__ (self : t) : string := _str self.
Definition rank (self : t) : Z := _rank self.
Definition suit (self : t) : Suit.t := _suit self.

(** ['<{}({})>'.format(self.__class__.__name__, str(self))] *)
Definition __repr__ (self : t) : string :=
  "<" ++ "Card" ++ "(" ++ __str__ self ++ ")>".
End Card.

(** ** The object store and the random source

    List objects are mutable and referred to by location. The random
    source is the stream of raw draws still to be consumed. *)

Definition loc : Type := nat.

Record state : Type := mkState {
  heap : list (list Card.t);
  rng : nat -> nat
}.

(** Computations that read and write the store and may raise. An
    exception leaves the store as it was when it was raised. *)
Definition M (A : Type) : Type := state -> result A * state.

#[global] Instance M_ret : MRet M := fun A a st => (Ok a, st).

#[global] Instance M_bind : MBind M := fun A B k m st =>
  match m st with
  | (Ok a, st') => k a st'
  | (Raise e, st') => (Raise e, st')
  end.

Definition raise {A} (e : exn) : M A := fun st => (Raise e, st).

Definition lift {A} (r : result A) : M A := fun st => (r, st).

(** Dereference a list object. References held by a program are always
    live; [DanglingReference] marks a location outside the store. *)
Definition deref (l : loc) : M (list Card.t) := fun st =>
  match heap st !! l with
  | Some xs => (Ok xs, st)
  | None => (Raise DanglingReference, st)
  end.

Definition store (l : loc) (xs : list Card.t) : M unit := fun st =>
  (Ok tt, {| heap := <[l := xs]> (heap st); rng := rng st |}).

(** A new list object holding [xs]. *)
Definition alloc (xs : list Card.t) : M loc := fun st =>
  (Ok (length (heap st)), {| heap := heap st ++ [xs]; rng := rng st |}).

(** [len(x)] *)
Definition list_len (x : loc) : M nat :=
  xs ← deref x; mret (length xs).

(** [x[i]] for a non-negative index. *)
Definition list_getitem (x : loc) (i : nat) : M Card.t :=
  xs ← deref x;
  match xs !! i with
  | Some c => mret c
  | None => raise IndexError
  end.

(** [x[i] = c] for a non-negative index. *)
Definition list_setitem (x : loc) (i : nat) (c : Card.t) : M unit :=
  xs ← deref x;
  if decide (i < length xs) then store x (<[i := c]> xs) else raise IndexError.

(** [x.copy()]: a new list object with the same items. *)
Definition list_copy (x : loc) : M loc :=
  xs ← deref x; alloc xs.

(** [randbelow(n)]: consumes one raw draw and yields a value in
    [range(n)]. *)
Definition randbelow (n : nat) : M nat := fun st =>
  (Ok (rng st 0 mod n), {| heap := heap st; rng := fun k => rng st (S k) |}).

(** The body of [random.shuffle], for the indices [i] still to visit:
<<
    j = randbelow(i + 1)
    x[i], x[j] = x[j], x[i]
>>
    The right-hand side is evaluated before either assignment. *)
Fixpoint shuffle_loop (x : loc) (indices : list nat) : M unit :=
  match indices with
  | [] => mret tt
  | i :: indices' =>
      j ← randbelow (i + 1);
      xj ← list_getitem x j;
      xi ← list_getitem x i;
      list_setitem x i xj;;
      list_setitem x j xi;;
      shuffle_loop x indices'
  end.

(** [random.shuffle(x)]: [for i in reversed(range(1, len(x)))]. *)
Definition random_shuffle (x : loc) : M unit :=
  n ← list_len x;
  shuffle_loop x (reverse (seq 1 (n - 1))).

(** ** The deck catalogue

    [DECK_CARDS] is bound, when the module is imported, to the list built
    by the comprehension over [itertools.product(RANKS_STR, SUITS_STR)];
    it is the first list object of the store. *)

Definition DECK_CARDS : loc := 0.

Definition build_DECK_CARDS : result (list Card.t) :=
  list_comp Card.from_pair (itertools_product RANKS_STR SUITS_STR).

(** Importing the module with the random source seeded by [seed]. *)
Definition import_module (seed : nat -> nat) : result loc * state :=
  (cards ← lift build_DECK_CARDS; alloc cards) {| heap := []; rng := seed |}.

(** ** Deck *)

Module Deck.
Record t : Type := mk { _cards : loc }.

Definition __init__ (cards : loc) : t := {| _cards := cards |}.

Definition cards (self : t) : loc := _cards self.

Definition new : M t :=
  cards ← list_copy DECK_CARDS;
  random_shuffle cards;;
  mret (__init__ cards).

Definition __str__ (self : t) : M string :=
  cs ← deref (cards self);
  mret (str_join ", " (map Card.__str__ cs)).

Definition __repr__ (self : t) : M string :=
  s ← __str__ self;
  mret ("<" ++ "Deck" ++ "(" ++ s ++ ")>").
End Deck.

(** ** Hand *)

Module Hand.
Record t : Type := mk { cards : loc }.

Definition __init__ (cards : loc) : t := {| cards := cards |}.

Definition from_str (tokens : list pyseq) : M t :=
  cs ← lift (list_comp Card.from_pair tokens);
  cards ← alloc cs;
  mret (__init__ cards).

Definition __str__ (self : t) : M string :=
  cs ← deref (cards self);
  mret (str_join ", " (map Card.__str__ cs)).

Definition __repr__ (self : t) : M string :=
  s ← __str__ self;
  mret ("<" ++ "Hand" ++ "(" ++ s ++ ")>").
End Hand.

(** ** Player *)

Module Player.
Record t : Type := mk { _hand : Hand.t }.

Definition __init__ (hand : Hand.t) : t := {| _hand := hand |}.

Definition hand (self : t) : Hand.t := _hand self.
End Player.

(** ** States used to state the properties *)

(** The store right after the module is imported. *)
Definition imported_state (seed : nat -> nat) : state := (import_module seed).2.

(** The catalogue built by the import ([[]] if the import raised). *)
Definition imported_catalogue : list Card.t :=
  match build_DECK_CARDS with
  | Ok cards => cards
  | Raise _ => []
  end.

(** A store holding one three-card list. *)
Definition example_state : state :=
  {| heap := [[Card.mk 14 Suit.HEARTS "AH"; Card.mk 9 Suit.CLUBS "9C";
               Card.mk 10 Suit.DIAMONDS "TD"]];
     rng := fun k => k |}.

(** Cards are compared by (rank, suit). *)
Definition card_key (c : Card.t) : Z * Suit.t := (Card.rank c, Card.suit c).

Definition rank_tokens : list string := str_iter RANKS_STR.
Definition suit_tokens : list string := str_iter SUITS_STR.

#[global] Instance Card_eq_dec : EqDecision Card.t.
Proof. solve_decision. Defined.

(** * Properties *)

(** ** Suit colours *)

(** C1 (as amended): the suit colours are CLUBS black, DIAMONDS red,
    HEARTS red and SPADES black; in integer codes, a suit is black exactly
    when its code is 1 or 4 and red exactly when its code is 2 or 3. *)
Theorem Suit_color_table :
  Suit.color Suit.CLUBS = Color.BLACK /\
  Suit.color Suit.DIAMONDS = Color.RED /\
  Suit.color Suit.HEARTS = Color.RED /\
  Suit.color Suit.SPADES = Color.BLACK /\
  forall s : Suit.t,
    (Suit.color s = Color.BLACK <-> Suit.value s = 1%Z \/ Suit.value s = 4%Z) /\
    (Suit.color s = Color.RED <-> Suit.value s = 2%Z \/ Suit.value s = 3%Z).
Proof.
  do 4 (split; [reflexivity |]).
  intros s; destruct s; cbn; repeat split; intros H;
    first [reflexivity | discriminate H | lia].
Qed.

(** C1 (as stated) fails: the table CLUBS black, DIAMONDS black, HEARTS
    red, SPADES red is not the one computed; DIAMONDS is red and SPADES is
    black. *)
Lemma Suit_color_table_claimed_fails :
  ~ (Suit.color Suit.CLUBS = Color.BLACK /\
     Suit.color Suit.DIAMONDS = Color.BLACK /\
     Suit.color Suit.HEARTS = Color.RED /\
     Suit.color Suit.SPADES = Color.RED).
Proof. intros (_ & Hd & _ & _). vm_compute in Hd. discriminate Hd. Qed.

(** C2: for every suit the colour is BLACK if the suit's integer code
    modulo 4 is at most 1, and RED otherwise. *)
Theorem Suit_color_modulo (s : Suit.t) :
  Suit.color s = (if decide (Suit.value s mod 4 <= 1)%Z then Color.BLACK else Color.RED) /\
  (Suit.color s = Color.BLACK <-> (Suit.value s mod 4 <= 1)%Z) /\
  (Suit.color s = Color.RED <-> ~ (Suit.value s mod 4 <= 1)%Z).
Proof.
  unfold Suit.color.
  destruct (Z.leb_spec (Suit.value s mod 4) 1) as [Hle | Hgt];
    (case_decide; [| ]); try lia; repeat split; intros; try done; lia.
Qed.

(** ** Symbol tables *)

Lemma RANKS_unfold :
  RANKS = <["A" := 14%Z]> (<["K" := 13%Z]> (<["Q" := 12%Z]>
            (<["J" := 11%Z]> (<["T" := 10%Z]> (<["9" := 9%Z]> ∅))))).
Proof. reflexivity. Qed.

Lemma SUITS_unfold :
  SUITS = <["S" := Suit.SPADES]> (<["H" := Suit.HEARTS]>
            (<["D" := Suit.DIAMONDS]> (<["C" := Suit.CLUBS]> ∅))).
Proof. reflexivity. Qed.

(** A token is a key of [RANKS] exactly when it is one of the characters
    of [RANKS_STR]. *)
Lemma RANKS_lookup_None (k : string) :
  RANKS !! k = None <-> k ∉ rank_tokens.
Proof.
  destruct (decide (k ∈ rank_tokens)) as [Hin | Hnin].
  - split; [| done]. intros Hnone. exfalso.
    cbv [rank_tokens RANKS_STR str_iter] in Hin.
    repeat (apply elem_of_cons in Hin as [-> | Hin]; [by vm_compute in Hnone |]).
    by apply elem_of_nil in Hin.
  - split; [done |]. intros _.
    cbv [rank_tokens RANKS_STR str_iter] in Hnin.
    rewrite !not_elem_of_cons in Hnin. destruct_and!.
    rewrite RANKS_unfold.
    rewrite !lookup_insert_ne by done. apply lookup_empty.
Qed.

Lemma SUITS_lookup_None (k : string) :
  SUITS !! k = None <-> k ∉ suit_tokens.
Proof.
  destruct (decide (k ∈ suit_tokens)) as [Hin | Hnin].
  - split; [| done]. intros Hnone. exfalso.
    cbv [suit_tokens SUITS_STR str_iter] in Hin.
    repeat (apply elem_of_cons in Hin as [-> | Hin]; [by vm_compute in Hnone |]).
    by apply elem_of_nil in Hin.
  - split; [done |]. intros _.
    cbv [suit_tokens SUITS_STR str_iter] in Hnin.
    rewrite !not_elem_of_cons in Hnin. destruct_and!.
    rewrite SUITS_unfold.
    rewrite !lookup_insert_ne by done. apply lookup_empty.
Qed.

(** ** Card construction *)

Lemma length_str_iter (s : string) : length (str_iter s) = String.length s.
Proof. induction s as [| c s IH]; cbn; [reflexivity | by rewrite IH]. Qed.

Lemma length_unpack (card : pyseq) : length (unpack card) = len card.
Proof. destruct card; cbn; [apply length_str_iter | reflexivity]. Qed.

Lemma dict_getitem_Ok {V} (d : gmap string V) (k : string) (v : V) :
  dict_getitem d k = Ok v <-> d !! k = Some v.
Proof. unfold dict_getitem. destruct (d !! k); split; intros H; by simplify_eq. Qed.

Lemma dict_getitem_Raise {V} (d : gmap string V) (k : string) (e : exn) :
  dict_getitem d k = Raise e <-> d !! k = None /\ e = KeyError k.
Proof.
  unfold dict_getitem. destruct (d !! k); split;
    [intros H | intros [H1 H2] | intros H | intros [H1 H2]]; by simplify_eq.
Qed.

(** The exact outcome of [Card(rank, suit)] in terms of the two table
    lookups. *)
Lemma Card_init_cases (rank suit : string) :
  match RANKS !! rank, SUITS !! suit with
  | Some r, Some s => Card.__init__ rank suit = Ok (Card.mk r s (rank ++ suit))
  | Some _, None => Card.__init__ rank suit = Raise (KeyError suit)
  | None, _ => Card.__init__ rank suit = Raise (KeyError rank)
  end.
Proof.
  unfold Card.__init__, dict_getitem.
  destruct (RANKS !! rank); [destruct (SUITS !! suit) |]; reflexivity.
Qed.

(** C5: for the rank token [r] at position [i] of "9TJQKA" and the suit
    token [s] at position [j] of "CDHS", [Card(r, s)] succeeds with rank
    [9 + i], with the [j]-th suit of CLUBS, DIAMONDS, HEARTS, SPADES, and
    with text [r + s]. *)
Theorem Card_init_tokens (i j : nat) (r s : string) :
  str_iter RANKS_STR !! i = Some r ->
  str_iter SUITS_STR !! j = Some s ->
  exists c : Card.t,
    Card.__init__ r s = Ok c /\
    Card.rank c = (9 + Z.of_nat i)%Z /\
    [Suit.CLUBS; Suit.DIAMONDS; Suit.HEARTS; Suit.SPADES] !! j = Some (Card.suit c) /\
    Card.__str__ c = r ++ s.
Proof.
  intros Hr Hs.
  destruct i as [| [| [| [| [| [| i]]]]]]; vm_compute in Hr;
    try discriminate Hr; injection Hr as <-;
    (destruct j as [| [| [| [| j]]]]; vm_compute in Hs;
     try discriminate Hs; injection Hs as <-);
    eexists; (split; [vm_compute; reflexivity |]); repeat split.
Qed.

Lemma Card_init_tokens_witness :
  exists c : Card.t,
    Card.__init__ "J" "D" = Ok c /\
    Card.rank c = (9 + Z.of_nat 2)%Z /\
    [Suit.CLUBS; Suit.DIAMONDS; Suit.HEARTS; Suit.SPADES] !! 1 = Some (Card.suit c) /\
    Card.__str__ c = "J" ++ "D".
Proof. apply (Card_init_tokens 2 1 "J" "D"); reflexivity. Defined.

(** C6: [Card(rank, suit)] raises [KeyError] exactly when at least one
    token is missing from its symbol table (the rank is looked up first,
    so a missing rank token is the one reported), and succeeds otherwise;
    [Card('9','C')] succeeds, [Card('9','Z')] and [Card('X','C')] raise
    [KeyError]. *)
Theorem Card_init_invalid_token (rank suit : string) :
  ((exists k, Card.__init__ rank suit = Raise (KeyError k)) <->
     RANKS !! rank = None \/ SUITS !! suit = None) /\
  ((exists e, Card.__init__ rank suit = Raise e) <->
     rank ∉ str_iter RANKS_STR \/ suit ∉ str_iter SUITS_STR) /\
  (forall e, Card.__init__ rank suit = Raise e <->
     (RANKS !! rank = None /\ e = KeyError rank) \/
     (is_Some (RANKS !! rank) /\ SUITS !! suit = None /\ e = KeyError suit)) /\
  ((exists c, Card.__init__ rank suit = Ok c) <->
     is_Some (RANKS !! rank) /\ is_Some (SUITS !! suit)) /\
  Card.__init__ "9" "C" = Ok (Card.mk 9 Suit.CLUBS "9C") /\
  Card.__init__ "9" "Z" = Raise (KeyError "Z") /\
  Card.__init__ "X" "C" = Raise (KeyError "X").
Proof.
  pose proof (Card_init_cases rank suit) as Hc.
  rewrite <- (RANKS_lookup_None rank), <- (SUITS_lookup_None suit).
  unfold is_Some.
  destruct (RANKS !! rank) as [r |]; [destruct (SUITS !! suit) as [s |] |];
    rewrite Hc; clear Hc;
    repeat match goal with |- _ /\ _ => split end; try reflexivity;
    try (intros e); (split; [intros H | intros H]);
    repeat match goal with
      | H : exists _, _ |- _ => destruct H
      | H : _ /\ _ |- _ => destruct H
      | H : _ \/ _ |- _ => destruct H
      end;
    simplify_eq; eauto 6.
Qed.

(** C7: [Card.from_pair] raises [ValueError] whenever its argument does
    not have exactly two items, the message ending in the observed length;
    with exactly two items it is [Card(first, second)]. In particular
    [from_pair("AH")] is the card of [Card('A', 'H')] and [from_pair("AHC")]
    reports length 3. *)
Theorem Card_from_pair_arity (card : pyseq) :
  (len card <> 2 ->
     Card.from_pair card =
       Raise (ValueError ("Expects card to be two items; got " ++ pretty (len card)))) /\
  (len card = 2 ->
     exists rank suit, unpack card = [rank; suit] /\
       Card.from_pair card = Card.__init__ rank suit) /\
  Card.from_pair (PyStr "AH") = Card.__init__ "A" "H" /\
  Card.from_pair (PyStr "AH") = Ok (Card.mk 14 Suit.HEARTS "AH") /\
  Card.from_pair (PyStr "AHC") =
    Raise (ValueError "Expects card to be two items; got 3").
Proof.
  split; [| split; [| by vm_compute]].
  - intros Hlen. unfold Card.from_pair. by rewrite decide_True.
  - intros Hlen. unfold Card.from_pair.
    rewrite decide_False by (intros Hne; by apply Hne).
    pose proof (length_unpack card) as Hu. rewrite Hlen in Hu.
    destruct (unpack card) as [| rank [| suit [| extra rest]]]; try discriminate Hu.
    by exists rank, suit.
Qed.

Lemma Card_from_pair_arity_witness :
  Card.from_pair (PyTuple ["A"; "H"; "C"]) =
    Raise (ValueError ("Expects card to be two items; got " ++ pretty 3)) /\
  exists rank suit, unpack (PyTuple ["K"; "S"]) = [rank; suit] /\
    Card.from_pair (PyTuple ["K"; "S"]) = Card.__init__ rank suit.
Proof.
  split.
  - apply (proj1 (Card_from_pair_arity (PyTuple ["A"; "H"; "C"]))). cbn. lia.
  - apply (proj1 (proj2 (Card_from_pair_arity (PyTuple ["K"; "S"])))). reflexivity.
Defined.

(** ** The deck catalogue *)

(** C3: the catalogue built when the module is imported has exactly 24
    cards, pairwise distinct by (rank, suit), enumerated with the ranks
    of "9TJQKA" as the outer loop and the suits of "CDHS" as the inner
    loop. *)
Theorem DECK_CARDS_catalogue :
  exists cards : list Card.t,
    build_DECK_CARDS = Ok cards /\
    (forall seed, import_module seed = (Ok DECK_CARDS, {| heap := [cards]; rng := seed |})) /\
    length cards = 24 /\
    NoDup (card_key <$> cards) /\
    card_key <$> cards = (r ← range 9 15; s ← Suit.members; [(r, s)]) /\
    Card.__str__ <$> cards = (r ← str_iter RANKS_STR; s ← str_iter SUITS_STR; [r ++ s]) /\
    Card.__str__ <$> cards =
      ["9C"; "9D"; "9H"; "9S"; "TC"; "TD"; "TH"; "TS"; "JC"; "JD"; "JH"; "JS";
       "QC"; "QD"; "QH"; "QS"; "KC"; "KD"; "KH"; "KS"; "AC"; "AD"; "AH"; "AS"].
Proof.
  eexists. split; [vm_compute; reflexivity |].
  split; [intros seed; reflexivity |].
  split; [reflexivity |].
  split; [| by vm_compute].
  apply (bool_decide_unpack _). by vm_compute.
Qed.

(** ** Running computations on the store *)

Lemma M_bind_Ok {A B} (m : M A) (k : A -> M B) (st st' : state) (a : A) :
  m st = (Ok a, st') -> (m ≫= k) st = k a st'.
Proof. intros Hm. unfold mbind, M_bind. by rewrite Hm. Qed.

Lemma M_bind_Raise {A B} (m : M A) (k : A -> M B) (st st' : state) (e : exn) :
  m st = (Raise e, st') -> (m ≫= k) st = (Raise e, st').
Proof. intros Hm. unfold mbind, M_bind. by rewrite Hm. Qed.

Lemma state_eta (st : state) : {| heap := heap st; rng := rng st |} = st.
Proof. by destruct st. Qed.

Lemma deref_run (st : state) (l : loc) (xs : list Card.t) :
  heap st !! l = Some xs -> deref l st = (Ok xs, st).
Proof. intros Hl. unfold deref. by rewrite Hl. Qed.

Lemma list_len_run (st : state) (x : loc) (xs : list Card.t) :
  heap st !! x = Some xs -> list_len x st = (Ok (length xs), st).
Proof.
  intros Hx. unfold list_len. by rewrite (M_bind_Ok _ _ st st xs (deref_run _ _ _ Hx)).
Qed.

Lemma list_getitem_run (st : state) (x : loc) (xs : list Card.t) (i : nat) (c : Card.t) :
  heap st !! x = Some xs -> xs !! i = Some c -> list_getitem x i st = (Ok c, st).
Proof.
  intros Hx Hi. unfold list_getitem.
  rewrite (M_bind_Ok _ _ st st xs (deref_run _ _ _ Hx)). by rewrite Hi.
Qed.

Lemma list_setitem_run (st : state) (x : loc) (xs : list Card.t) (i : nat) (c : Card.t) :
  heap st !! x = Some xs -> i < length xs ->
  list_setitem x i c st =
    (Ok tt, {| heap := <[x := <[i := c]> xs]> (heap st); rng := rng st |}).
Proof.
  intros Hx Hi. unfold list_setitem.
  rewrite (M_bind_Ok _ _ st st xs (deref_run _ _ _ Hx)). by rewrite decide_True.
Qed.

(** ** Shuffling *)

Section shuffle.
Variable x : loc.

(** Each round of the loop swaps two items of the list at [x] and
    touches no other list; the loop never raises. *)
Lemma shuffle_loop_run (indices : list nat) :
  forall (st : state) (xs : list Card.t),
    heap st !! x = Some xs ->
    Forall (fun i => i < length xs) indices ->
    exists (xs' : list Card.t) (g : nat -> nat),
      shuffle_loop x indices st =
        (Ok tt, {| heap := <[x := xs']> (heap st); rng := g |}) /\
      xs' ≡ₚ xs.
Proof.
  induction indices as [| i indices IH]; intros st xs Hx Hall.
  - exists xs, (rng st). split; [| done].
    cbn. by rewrite list_insert_id, state_eta.
  - apply Forall_cons in Hall as [Hi Hall].
    pose (j := rng st 0 mod (i + 1)).
    assert (Hj : j < length xs).
    { pose proof (Nat.mod_upper_bound (rng st 0) (i + 1)). lia. }
    destruct (lookup_lt_is_Some_2 xs i Hi) as [xi Hxi].
    destruct (lookup_lt_is_Some_2 xs j Hj) as [xj Hxj].
    pose (st1 := {| heap := heap st; rng := fun k => rng st (S k) |}).
    pose (xs2 := <[i := xj]> xs).
    pose (st2 := {| heap := <[x := xs2]> (heap st1); rng := rng st1 |}).
    pose (xs3 := <[j := xi]> xs2).
    pose (st3 := {| heap := <[x := xs3]> (heap st2); rng := rng st2 |}).
    assert (Hlt : x < length (heap st)) by (by eapply lookup_lt_Some).
    assert (Hx2 : heap st2 !! x = Some xs2).
    { cbn. by apply list_lookup_insert_eq. }
    assert (Hx3 : heap st3 !! x = Some xs3).
    { cbn. apply list_lookup_insert_eq. by rewrite length_insert. }
    assert (Hperm : xs3 ≡ₚ xs) by (by apply Permutation_insert_swap).
    destruct (IH st3 xs3 Hx3) as (xs' & g & Hrun & Hxs').
    { eapply Forall_impl; [exact Hall |]. intros k Hk.
      unfold xs3, xs2. by rewrite !length_insert. }
    exists xs', g. split; [| by rewrite Hxs'].
    cbn [shuffle_loop].
    rewrite (M_bind_Ok _ _ st st1 j) by reflexivity.
    rewrite (M_bind_Ok _ _ st1 st1 xj) by (by apply list_getitem_run with xs).
    rewrite (M_bind_Ok _ _ st1 st1 xi) by (by apply list_getitem_run with xs).
    rewrite (M_bind_Ok _ _ st1 st2 tt) by (by apply list_setitem_run).
    rewrite (M_bind_Ok _ _ st2 st3 tt).
    2: { apply list_setitem_run; [done |]. unfold xs2. by rewrite length_insert. }
    rewrite Hrun. cbn. by rewrite !list_insert_insert_eq.
Qed.

Lemma random_shuffle_run (st : state) (xs : list Card.t) :
  heap st !! x = Some xs ->
  exists (xs' : list Card.t) (g : nat -> nat),
    random_shuffle x st =
      (Ok tt, {| heap := <[x := xs']> (heap st); rng := g |}) /\
    xs' ≡ₚ xs.
Proof.
  intros Hx. unfold random_shuffle.
  rewrite (M_bind_Ok _ _ st st (length xs)) by (by apply list_len_run).
  apply shuffle_loop_run; [done |].
  apply Forall_reverse, Forall_forall. intros i Hi%elem_of_seq. lia.
Qed.
End shuffle.

(** ** Deck *)

Lemma build_DECK_CARDS_distinct (cards : list Card.t) :
  build_DECK_CARDS = Ok cards ->
  length cards = 24 /\ NoDup (card_key <$> cards).
Proof.
  intros Hb. vm_compute in Hb. injection Hb as <-.
  split; [reflexivity |]. apply (bool_decide_unpack _). by vm_compute.
Qed.

Lemma list_copy_run (st : state) (x : loc) (xs : list Card.t) :
  heap st !! x = Some xs ->
  list_copy x st = (Ok (length (heap st)), {| heap := heap st ++ [xs]; rng := rng st |}).
Proof.
  intros Hx. unfold list_copy.
  by rewrite (M_bind_Ok _ _ st st xs (deref_run _ _ _ Hx)).
Qed.

(** [Deck.new] allocates one new list, a permutation of the catalogue,
    and leaves every list already in the store as it was. *)
Lemma Deck_new_run (st : state) (catalogue : list Card.t) :
  heap st !! DECK_CARDS = Some catalogue ->
  exists (cs : list Card.t) (g : nat -> nat),
    Deck.new st =
      (Ok (Deck.mk (length (heap st))), {| heap := heap st ++ [cs]; rng := g |}) /\
    cs ≡ₚ catalogue.
Proof.
  intros Hcat. unfold Deck.new.
  rewrite (M_bind_Ok _ _ _ _ _ (list_copy_run _ _ _ Hcat)).
  destruct (random_shuffle_run (length (heap st))
              {| heap := heap st ++ [catalogue]; rng := rng st |} catalogue)
    as (cs & g & Hrun & Hperm).
  { cbn. by apply list_lookup_middle. }
  exists cs, g. split; [| done].
  rewrite (M_bind_Ok _ _ _ _ _ Hrun). cbn.
  by rewrite insert_app_r_alt, Nat.sub_diag.
Qed.

(** C4: whatever the random source yields, the cards of [Deck.new()] are
    a permutation of the catalogue, and the catalogue list is left as it
    was: a second [Deck.new()] again yields a permutation of it, each deck
    holding 24 cards pairwise distinct by (rank, suit). *)
Theorem Deck_new_permutation (st : state) (catalogue : list Card.t) :
  build_DECK_CARDS = Ok catalogue ->
  heap st !! DECK_CARDS = Some catalogue ->
  exists (d1 d2 : Deck.t) (st1 st2 : state) (cs1 cs2 : list Card.t),
    Deck.new st = (Ok d1, st1) /\
    deref (Deck.cards d1) st1 = (Ok cs1, st1) /\
    cs1 ≡ₚ catalogue /\ length cs1 = 24 /\ NoDup (card_key <$> cs1) /\
    deref DECK_CARDS st1 = (Ok catalogue, st1) /\
    Deck.new st1 = (Ok d2, st2) /\
    deref (Deck.cards d2) st2 = (Ok cs2, st2) /\
    cs2 ≡ₚ catalogue /\ length cs2 = 24 /\ NoDup (card_key <$> cs2) /\
    deref DECK_CARDS st2 = (Ok catalogue, st2) /\
    deref (Deck.cards d1) st2 = (Ok cs1, st2).
Proof.
  intros Hbuild Hcat.
  destruct (build_DECK_CARDS_distinct _ Hbuild) as [Hlen Hnodup].
  destruct (Deck_new_run st catalogue Hcat) as (cs1 & g1 & Hnew1 & Hperm1).
  set (st1 := {| heap := heap st ++ [cs1]; rng := g1 |}) in *.
  assert (Hcat1 : heap st1 !! DECK_CARDS = Some catalogue)
    by (by apply lookup_app_l_Some).
  destruct (Deck_new_run st1 catalogue Hcat1) as (cs2 & g2 & Hnew2 & Hperm2).
  set (st2 := {| heap := heap st1 ++ [cs2]; rng := g2 |}) in *.
  assert (Hd1 : heap st1 !! length (heap st) = Some cs1)
    by (by apply list_lookup_middle).
  exists (Deck.mk (length (heap st))), (Deck.mk (length (heap st1))), st1, st2, cs1, cs2.
  repeat match goal with |- _ /\ _ => split end; try done.
  - by apply deref_run.
  - by rewrite Hperm1.
  - by rewrite Hperm1.
  - by apply deref_run.
  - apply deref_run. by apply list_lookup_middle.
  - by rewrite Hperm2.
  - by rewrite Hperm2.
  - apply deref_run. by apply lookup_app_l_Some.
  - apply deref_run. by apply lookup_app_l_Some.
Qed.

(** [sep.join] puts the separator between consecutive parts only. *)
Lemma str_join_unfold (sep x y : string) (parts : list string) :
  str_join sep [] = "" /\
  str_join sep [x] = x /\
  str_join sep (x :: y :: parts) = x ++ sep ++ str_join sep (y :: parts).
Proof. by repeat split. Qed.

(** C9: [Deck(cards)] keeps the very list it is given, so its cards are
    that list's cards in the same order, and [str(deck)] joins the cards'
    texts with ", " in that order. *)
Theorem Deck_init_verbatim (st : state) (l : loc) (cs : list Card.t) :
  heap st !! l = Some cs ->
  Deck.cards (Deck.__init__ l) = l /\
  deref (Deck.cards (Deck.__init__ l)) st = (Ok cs, st) /\
  Deck.__str__ (Deck.__init__ l) st =
    (Ok (String.concat ", " (Card.__str__ <$> cs)), st).
Proof.
  intros Hl. split; [reflexivity |]. split; [by apply deref_run |].
  unfold Deck.__str__.
  by rewrite (M_bind_Ok _ _ _ _ _ (deref_run st _ cs Hl)).
Qed.

Lemma Deck_init_verbatim_witness :
  Deck.cards (Deck.__init__ 0) = 0 /\
  deref (Deck.cards (Deck.__init__ 0)) example_state =
    (Ok [Card.mk 14 Suit.HEARTS "AH"; Card.mk 9 Suit.CLUBS "9C"; Card.mk 10 Suit.DIAMONDS "TD"],
     example_state) /\
  Deck.__str__ (Deck.__init__ 0) example_state =
    (Ok (String.concat ", "
           (Card.__str__ <$> [Card.mk 14 Suit.HEARTS "AH"; Card.mk 9 Suit.CLUBS "9C";
                              Card.mk 10 Suit.DIAMONDS "TD"])),
     example_state).
Proof. apply (Deck_init_verbatim example_state 0). reflexivity. Defined.

Lemma Deck_new_permutation_witness :
  exists (d1 d2 : Deck.t) (st1 st2 : state) (cs1 cs2 : list Card.t),
    Deck.new (imported_state (fun k => 5 * k + 2)) = (Ok d1, st1) /\
    deref (Deck.cards d1) st1 = (Ok cs1, st1) /\
    cs1 ≡ₚ imported_catalogue /\ length cs1 = 24 /\ NoDup (card_key <$> cs1) /\
    deref DECK_CARDS st1 = (Ok imported_catalogue, st1) /\
    Deck.new st1 = (Ok d2, st2) /\
    deref (Deck.cards d2) st2 = (Ok cs2, st2) /\
    cs2 ≡ₚ imported_catalogue /\ length cs2 = 24 /\ NoDup (card_key <$> cs2) /\
    deref DECK_CARDS st2 = (Ok imported_catalogue, st2) /\
    deref (Deck.cards d1) st2 = (Ok cs1, st2).
Proof.
  apply (Deck_new_permutation (imported_state (fun k => 5 * k + 2)) imported_catalogue);
    reflexivity.
Defined.

(** ** Hand *)

Lemma list_comp_Ok {A B} (f : A -> result B) (xs : list A) (ys : list B) :
  list_comp f xs = Ok ys <-> Forall2 (fun x y => f x = Ok y) xs ys.
Proof.
  revert ys. induction xs as [| x xs IH]; intros ys; cbn.
  - split; [intros [= <-]; constructor | by intros ->%Forall2_nil_inv_l].
  - split.
    + destruct (f x) as [y | e] eqn:Hfx; cbn; [| done].
      destruct (list_comp f xs) as [ys' | e] eqn:Hxs; cbn; [| done].
      intros [= <-]. constructor; [done | by apply IH].
    + intros (y & ys' & Hfx & Hall & ->)%Forall2_cons_inv_l.
      apply IH in Hall. by rewrite Hfx, Hall.
Qed.

(** The comprehension raises the exception of its first failing element. *)
Lemma list_comp_first_error {A B} (f : A -> result B)
    (pre : list A) (x : A) (post : list A) (ys : list B) (e : exn) :
  Forall2 (fun x y => f x = Ok y) pre ys ->
  f x = Raise e ->
  list_comp f (pre ++ x :: post)%list = Raise e.
Proof.
  intros Hpre Hx.
  induction Hpre as [| p y pre ys Hp _ IH]; cbn.
  - by rewrite Hx.
  - by rewrite Hp, IH.
Qed.

(** Whenever the comprehension raises, some element failed after a
    prefix of successes. *)
Lemma list_comp_Raise_inv {A B} (f : A -> result B) (xs : list A) (e : exn) :
  list_comp f xs = Raise e ->
  exists (pre : list A) (x : A) (post : list A) (ys : list B),
    xs = (pre ++ x :: post)%list /\
    Forall2 (fun x y => f x = Ok y) pre ys /\ f x = Raise e.
Proof.
  induction xs as [| x xs IH]; cbn; [done |].
  destruct (f x) as [y | e'] eqn:Hfx; cbn.
  - destruct (list_comp f xs) as [ys' | e'] eqn:Hxs; cbn; [done |].
    intros [= ->].
    destruct (IH eq_refl) as (pre & x' & post & ys & -> & Hpre & Hx').
    exists (x :: pre), x', post, (y :: ys).
    split; [done |]. split; [by constructor | done].
  - intros [= ->]. exists [], x, xs, [].
    split; [done |]. split; [constructor | done].
Qed.

Lemma Hand_from_str_Ok (st : state) (tokens : list pyseq) (cs : list Card.t) :
  list_comp Card.from_pair tokens = Ok cs ->
  Hand.from_str tokens st =
    (Ok (Hand.mk (length (heap st))), {| heap := heap st ++ [cs]; rng := rng st |}).
Proof.
  intros Hcs. unfold Hand.from_str.
  by rewrite (M_bind_Ok _ _ st st cs) by (unfold lift; by rewrite Hcs).
Qed.

Lemma Hand_from_str_Raise (st : state) (tokens : list pyseq) (e : exn) :
  list_comp Card.from_pair tokens = Raise e ->
  Hand.from_str tokens st = (Raise e, st).
Proof.
  intros Hcs. unfold Hand.from_str.
  by rewrite (M_bind_Raise _ _ st st e) by (unfold lift; by rewrite Hcs).
Qed.

Lemma Hand_str_run (st : state) (h : Hand.t) (cs : list Card.t) :
  heap st !! Hand.cards h = Some cs ->
  Hand.__str__ h st = (Ok (String.concat ", " (Card.__str__ <$> cs)), st).
Proof.
  intros Hh. unfold Hand.__str__.
  by rewrite (M_bind_Ok _ _ _ _ _ (deref_run st _ cs Hh)).
Qed.

(** C8: [Hand.from_str] builds its cards with [Card.from_pair], token by
    token in order. If every token yields a card, the hand holds those
    cards in input order; if a token fails after a prefix of successes,
    the call raises that token's exception, no hand is returned and the
    store is untouched, and it raises in no other way. The tokens
    "9C", "TD", "JH", "QS", "KC" give a hand printed "9C, TD, JH, QS, KC". *)
Theorem Hand_from_str_fail_fast (st : state) (tokens : list pyseq) :
  (forall cs : list Card.t,
     Forall2 (fun t c => Card.from_pair t = Ok c) tokens cs ->
     exists (h : Hand.t) (st' : state),
       Hand.from_str tokens st = (Ok h, st') /\
       deref (Hand.cards h) st' = (Ok cs, st') /\
       Hand.__str__ h st' = (Ok (String.concat ", " (Card.__str__ <$> cs)), st')) /\
  (forall (pre : list pyseq) (t : pyseq) (post : list pyseq) (cs : list Card.t) (e : exn),
     tokens = (pre ++ t :: post)%list ->
     Forall2 (fun t c => Card.from_pair t = Ok c) pre cs ->
     Card.from_pair t = Raise e ->
     Hand.from_str tokens st = (Raise e, st)) /\
  (forall (e : exn) (st' : state),
     Hand.from_str tokens st = (Raise e, st') ->
     st' = st /\
     exists (pre : list pyseq) (t : pyseq) (post : list pyseq) (cs : list Card.t),
       tokens = (pre ++ t :: post)%list /\
       Forall2 (fun t c => Card.from_pair t = Ok c) pre cs /\
       Card.from_pair t = Raise e) /\
  (exists (h : Hand.t) (st' : state),
     Hand.from_str [PyStr "9C"; PyStr "TD"; PyStr "JH"; PyStr "QS"; PyStr "KC"] st =
       (Ok h, st') /\
     Hand.__str__ h st' = (Ok "9C, TD, JH, QS, KC", st')).
Proof.
  repeat match goal with |- _ /\ _ => split end.
  - intros cs Hcs%list_comp_Ok.
    eexists _, _. split; [by apply Hand_from_str_Ok |].
    assert ((heap st ++ [cs])%list !! length (heap st) = Some cs) as Hl
      by (by apply list_lookup_middle).
    split; [by apply deref_run | by apply Hand_str_run].
  - intros pre t post cs e -> Hpre Ht.
    apply Hand_from_str_Raise. by eapply list_comp_first_error.
  - intros e st' Hrun.
    destruct (list_comp Card.from_pair tokens) as [cs | e'] eqn:Hcs.
    + rewrite (Hand_from_str_Ok st tokens cs Hcs) in Hrun. discriminate Hrun.
    + rewrite (Hand_from_str_Raise st tokens e' Hcs) in Hrun.
      injection Hrun as -> ->. split; [done |].
      by apply list_comp_Raise_inv.
  - eexists _, _. split; [apply Hand_from_str_Ok; by vm_compute |].
    erewrite Hand_str_run by (cbn; by apply list_lookup_middle).
    reflexivity.
Qed.

Lemma Hand_from_str_fail_fast_witness :
  (exists (h : Hand.t) (st' : state),
     Hand.from_str [PyStr "9C"; PyTuple ["T"; "D"]] example_state = (Ok h, st') /\
     deref (Hand.cards h) st' =
       (Ok [Card.mk 9 Suit.CLUBS "9C"; Card.mk 10 Suit.DIAMONDS "TD"], st') /\
     Hand.__str__ h st' =
       (Ok (String.concat ", "
              (Card.__str__ <$> [Card.mk 9 Suit.CLUBS "9C"; Card.mk 10 Suit.DIAMONDS "TD"])),
        st')) /\
  Hand.from_str [PyStr "9C"; PyStr "TZ"; PyStr "J"] example_state =
    (Raise (KeyError "Z"), example_state).
Proof.
  split.
  - apply (proj1 (Hand_from_str_fail_fast example_state
                    [PyStr "9C"; PyTuple ["T"; "D"]])).
    repeat constructor.
  - apply (proj1 (proj2 (Hand_from_str_fail_fast example_state
                           [PyStr "9C"; PyStr "TZ"; PyStr "J"]))
             [PyStr "9C"] (PyStr "TZ") [PyStr "J"] [Card.mk 9 Suit.CLUBS "9C"]).
    + reflexivity.
    + repeat constructor.
    + reflexivity.
Defined.

(** C10: on an empty sequence the collection constructors succeed:
    [Hand.from_str([])] is a hand with no cards printed as the empty
    string, and a deck over an empty list is printed as the empty
    string. *)
Theorem empty_collections (st : state) :
  (exists (h : Hand.t) (st' : state),
     Hand.from_str [] st = (Ok h, st') /\
     deref (Hand.cards h) st' = (Ok [], st') /\
     Hand.__str__ h st' = (Ok "", st')) /\
  (exists (l : loc) (st' : state),
     alloc [] st = (Ok l, st') /\
     deref (Deck.cards (Deck.__init__ l)) st' = (Ok [], st') /\
     Deck.__str__ (Deck.__init__ l) st' = (Ok "", st')).
Proof.
  pose (st' := {| heap := heap st ++ [[]]; rng := rng st |}).
  assert (heap st' !! length (heap st) = Some []) as Hl
    by (cbn; by apply list_lookup_middle).
  split.
  - exists (Hand.mk (length (heap st))), st'.
    split; [by apply Hand_from_str_Ok |].
    split; [by apply deref_run |].
    by rewrite (Hand_str_run st' (Hand.mk (length (heap st))) [] Hl).
  - exists (length (heap st)), st'. split; [reflexivity |].
    split; [by apply deref_run |].
    unfold Deck.__str__.
    by rewrite (M_bind_Ok _ _ _ _ _ (deref_run st' _ [] Hl)).
Qed.

(** * Further properties of the module *)

(** ** Tokens and tables *)

Ltac token_cases H :=
  cbv [rank_tokens suit_tokens RANKS_STR SUITS_STR str_iter] in H;
  repeat (apply elem_of_cons in H as [-> | H]);
  [.. | by apply elem_of_nil in H].

Lemma RANKS_lookup_Some (k : string) (v : Z) :
  RANKS !! k = Some v -> k ∈ rank_tokens.
Proof.
  intros Hk. destruct (decide (k ∈ rank_tokens)) as [Hin | Hnin]; [done |].
  apply RANKS_lookup_None in Hnin. congruence.
Qed.

Lemma SUITS_lookup_Some (k : string) (v : Suit.t) :
  SUITS !! k = Some v -> k ∈ suit_tokens.
Proof.
  intros Hk. destruct (decide (k ∈ suit_tokens)) as [Hin | Hnin]; [done |].
  apply SUITS_lookup_None in Hnin. congruence.
Qed.

(** A successful [Card(rank, suit)] used a key of each table. *)
Lemma Card_init_Ok_inv (rank suit : string) (c : Card.t) :
  Card.__init__ rank suit = Ok c ->
  rank ∈ rank_tokens /\ suit ∈ suit_tokens.
Proof.
  intros Hc. pose proof (Card_init_cases rank suit) as Hcases.
  destruct (RANKS !! rank) as [r |] eqn:Hr; [| congruence].
  destruct (SUITS !! suit) as [s |] eqn:Hs; [| congruence].
  split; [by eapply RANKS_lookup_Some | by eapply SUITS_lookup_Some].
Qed.

(** A successful [Card.from_pair] is a successful [Card(rank, suit)] on
    the two items of its argument. *)
Lemma Card_from_pair_Ok_inv (card : pyseq) (c : Card.t) :
  Card.from_pair card = Ok c ->
  exists rank suit : string,
    unpack card = [rank; suit] /\ Card.__init__ rank suit = Ok c.
Proof.
  unfold Card.from_pair. case_decide as Hlen; [done |].
  destruct (unpack card) as [| rank [| suit [| extra rest]]]; try done.
  intros Hc. by exists rank, suit.
Qed.

Lemma concat_str_iter (s : string) : String.concat "" (str_iter s) = s.
Proof.
  induction s as [| c s IH]; [reflexivity |].
  cbn [str_iter]. destruct s as [| c' s']; [reflexivity |].
  cbn [str_iter] in *. cbn [String.concat] in *. cbn. by rewrite IH.
Qed.

(** ** The cards that can be constructed *)

(** Every card that [Card.from_pair] returns is a card of the catalogue. *)
Lemma Card_from_pair_catalogue (card : pyseq) (c : Card.t) :
  Card.from_pair card = Ok c -> c ∈ imported_catalogue.
Proof.
  intros (rank & suit & _ & Hc)%Card_from_pair_Ok_inv.
  destruct (Card_init_Ok_inv _ _ _ Hc) as [Hr Hs].
  token_cases Hr; token_cases Hs;
    vm_compute in Hc; injection Hc as <-;
    apply (bool_decide_unpack _); by vm_compute.
Qed.

(** Every card of the catalogue is parsed back from its own text. *)
Lemma catalogue_from_pair_str (c : Card.t) :
  c ∈ imported_catalogue -> Card.from_pair (PyStr (Card.__str__ c)) = Ok c.
Proof.
  intros Hc. vm_compute in Hc.
  repeat (apply elem_of_cons in Hc as [-> | Hc]; [by vm_compute |]).
  by apply elem_of_nil in Hc.
Qed.

Lemma catalogue_key_inj (c1 c2 : Card.t) :
  c1 ∈ imported_catalogue -> c2 ∈ imported_catalogue ->
  card_key c1 = card_key c2 -> c1 = c2.
Proof.
  intros [i Hi]%list_elem_of_lookup [j Hj]%list_elem_of_lookup Hkey.
  assert (NoDup (card_key <$> imported_catalogue)) as Hnodup
    by (apply (bool_decide_unpack _); by vm_compute).
  assert (i = j) as ->.
  { eapply (NoDup_lookup _ i j (card_key c1) Hnodup).
    - by rewrite list_lookup_fmap, Hi.
    - by rewrite list_lookup_fmap, Hj, Hkey. }
  congruence.
Qed.

(** The text of a card is the concatenation of the two items it was
    built from. *)
Lemma Card_from_pair_text (card : pyseq) (c : Card.t) :
  Card.from_pair card = Ok c ->
  Card.__str__ c = String.concat "" (unpack card).
Proof.
  intros (rank & suit & -> & Hc)%Card_from_pair_Ok_inv.
  pose proof (Card_init_cases rank suit) as Hcases.
  destruct (RANKS !! rank); [| congruence].
  destruct (SUITS !! suit); [| congruence].
  rewrite Hcases in Hc. by injection Hc as <-.
Qed.

Lemma Card_from_pair_str_text (s : string) (c : Card.t) :
  Card.from_pair (PyStr s) = Ok c -> Card.__str__ c = s.
Proof.
  intros Hc. rewrite (Card_from_pair_text _ _ Hc). apply concat_str_iter.
Qed.

(** X1: parsing then printing gives back the input: a card returned by
    [Card.from_pair] prints as the concatenation of the two items it was
    built from, so [str(Card.from_pair(s))] is [s] for a string [s], and its
    [repr] wraps that text as [<Card(..)>]. *)
Theorem Card_parse_then_print (card : pyseq) (c : Card.t) :
  Card.from_pair card = Ok c ->
  Card.__str__ c = String.concat "" (unpack card) /\
  Card.__repr__ c = "<Card(" ++ String.concat "" (unpack card) ++ ")>" /\
  (forall s : string, card = PyStr s -> Card.__str__ c = s).
Proof.
  intros Hc. pose proof (Card_from_pair_text _ _ Hc) as Hstr.
  split; [done |]. split.
  - unfold Card.__repr__. by rewrite Hstr.
  - intros s ->. by apply Card_from_pair_str_text.
Qed.

Lemma Card_parse_then_print_witness :
  Card.__str__ (Card.mk 12 Suit.SPADES "QS") = String.concat "" (unpack (PyStr "QS")) /\
  Card.__repr__ (Card.mk 12 Suit.SPADES "QS") =
    "<Card(" ++ String.concat "" (unpack (PyStr "QS")) ++ ")>" /\
  (forall s : string, PyStr "QS" = PyStr s -> Card.__str__ (Card.mk 12 Suit.SPADES "QS") = s).
Proof. apply (Card_parse_then_print (PyStr "QS")). reflexivity. Defined.

(** X2: printing then parsing gives back the card: the text of a card
    returned by [Card.from_pair] has exactly two characters and
    [Card.from_pair] maps it to the same rank, suit and text, also when the
    card was built from a tuple. *)
Theorem Card_print_then_parse (card : pyseq) (c : Card.t) :
  Card.from_pair card = Ok c ->
  String.length (Card.__str__ c) = 2 /\
  Card.from_pair (PyStr (Card.__str__ c)) = Ok c.
Proof.
  intros Hc. pose proof (Card_from_pair_catalogue _ _ Hc) as Hcat.
  split; [| by apply catalogue_from_pair_str].
  pose proof (catalogue_from_pair_str c Hcat) as Hback.
  unfold Card.from_pair in Hback. case_decide as Hlen; [done |].
  cbn in Hlen. lia.
Qed.

Lemma Card_print_then_parse_witness :
  String.length (Card.__str__ (Card.mk 10 Suit.HEARTS "TH")) = 2 /\
  Card.from_pair (PyStr (Card.__str__ (Card.mk 10 Suit.HEARTS "TH"))) =
    Ok (Card.mk 10 Suit.HEARTS "TH").
Proof. apply (Card_print_then_parse (PyTuple ["T"; "H"])). reflexivity. Defined.

(** X3: a constructed card is determined by its rank and suit: two cards
    returned by [Card.from_pair] with the same (rank, suit) also have the
    same text; the rank of a constructed card lies in 9..14. *)
Theorem Card_key_determines_card (a b : pyseq) (c1 c2 : Card.t) :
  Card.from_pair a = Ok c1 ->
  Card.from_pair b = Ok c2 ->
  (9 <= Card.rank c1 <= 14)%Z /\
  (card_key c1 = card_key c2 -> c1 = c2 /\ String.concat "" (unpack a) = String.concat "" (unpack b)).
Proof.
  intros Ha Hb.
  pose proof (Card_from_pair_catalogue _ _ Ha) as Hc1.
  pose proof (Card_from_pair_catalogue _ _ Hb) as Hc2.
  split.
  - clear -Hc1. vm_compute in Hc1.
    repeat (apply elem_of_cons in Hc1 as [-> | Hc1]; [by vm_compute |]).
    by apply elem_of_nil in Hc1.
  - intros Hkey. pose proof (catalogue_key_inj c1 c2 Hc1 Hc2 Hkey) as ->.
    split; [done |].
    apply Card_from_pair_Ok_inv in Ha as (r1 & s1 & -> & Ha).
    apply Card_from_pair_Ok_inv in Hb as (r2 & s2 & -> & Hb).
    pose proof (Card_init_cases r1 s1) as H1.
    pose proof (Card_init_cases r2 s2) as H2.
    destruct (RANKS !! r1); [| congruence]. destruct (SUITS !! s1); [| congruence].
    destruct (RANKS !! r2); [| congruence]. destruct (SUITS !! s2); [| congruence].
    rewrite H1 in Ha. rewrite H2 in Hb. rewrite <- Hb in Ha.
    injection Ha as _ _ Hstr. exact Hstr.
Qed.

Lemma Card_key_determines_card_witness :
  (9 <= Card.rank (Card.mk 11 Suit.DIAMONDS "JD") <= 14)%Z /\
  (card_key (Card.mk 11 Suit.DIAMONDS "JD") = card_key (Card.mk 11 Suit.DIAMONDS "JD") ->
   Card.mk 11 Suit.DIAMONDS "JD" = Card.mk 11 Suit.DIAMONDS "JD" /\
   String.concat "" (unpack (PyStr "JD")) = String.concat "" (unpack (PyTuple ["J"; "D"]))).
Proof.
  apply (Card_key_determines_card (PyStr "JD") (PyTuple ["J"; "D"])); reflexivity.
Defined.

(** X4: the catalogue is exactly the set of cards that can be
    constructed: a card is returned by some call of [Card.from_pair] if and
    only if it is one of the 24 cards of [DECK_CARDS]. *)
Theorem catalogue_complete (c : Card.t) :
  (exists card : pyseq, Card.from_pair card = Ok c) <-> c ∈ imported_catalogue.
Proof.
  split.
  - intros [card Hc]. by eapply Card_from_pair_catalogue.
  - intros Hc. exists (PyStr (Card.__str__ c)). by apply catalogue_from_pair_str.
Qed.

(** X5: [Card.from_pair] raises in exactly two ways: [ValueError] naming
    the observed length when the argument does not have two items, and
    otherwise [KeyError] naming the first of the two items that is not a
    character of its token string (the rank item before the suit item).
    It raises nothing else. *)
Theorem Card_from_pair_errors (card : pyseq) (e : exn) :
  Card.from_pair card = Raise e <->
  (len card <> 2 /\
   e = ValueError ("Expects card to be two items; got " ++ pretty (len card))) \/
  (exists rank suit : string,
     unpack card = [rank; suit] /\
     (((rank ∉ str_iter RANKS_STR) /\ e = KeyError rank) \/
      ((rank ∈ str_iter RANKS_STR) /\ (suit ∉ str_iter SUITS_STR) /\ e = KeyError suit))).
Proof.
  fold rank_tokens suit_tokens.
  pose proof (length_unpack card) as Hlen.
  unfold Card.from_pair. case_decide as Hne.
  - split.
    + intros [= <-]. by left.
    + intros [[_ ->] | (rank & suit & Hu & _)]; [done |].
      rewrite Hu in Hlen. cbn in Hlen. congruence.
  - destruct (unpack card) as [| rank [| suit [| extra rest]]];
      cbn in Hlen; try (exfalso; lia).
    pose proof (Card_init_cases rank suit) as Hc.
    split.
    + intros He. right. exists rank, suit. split; [done |].
      destruct (RANKS !! rank) as [r |] eqn:Hr;
        [destruct (SUITS !! suit) as [s |] eqn:Hs |];
        rewrite Hc in He; simplify_eq.
      * right. split; [by eapply RANKS_lookup_Some |].
        split; [by apply SUITS_lookup_None | done].
      * left. split; [by apply RANKS_lookup_None | done].
    + intros [[Hl _] | (rank' & suit' & [= <- <-] & Hcase)]; [lia |].
      destruct Hcase as [[Hr ->] | (Hr & Hs & ->)].
      * apply RANKS_lookup_None in Hr. by rewrite Hr in Hc.
      * apply SUITS_lookup_None in Hs.
        destruct (RANKS !! rank) as [r |] eqn:Hrk.
        -- by rewrite Hs in Hc.
        -- by apply RANKS_lookup_None in Hrk.
Qed.

(** X6: a string and the tuple of its characters are interchangeable
    arguments: [Card.from_pair] gives the same card or the same exception
    for an argument and for the tuple of its items. *)
Theorem Card_from_pair_str_or_tuple (card : pyseq) :
  Card.from_pair card = Card.from_pair (PyTuple (unpack card)).
Proof.
  unfold Card.from_pair. cbn [len unpack].
  by rewrite (length_unpack card).
Qed.

(** X7: [RANKS] maps the character at position [i] of "9TJQKA" to
    [9 + i] and has no other key; so no two tokens share a rank, every
    rank in 9..14 has a token, and the table has six entries. *)
Theorem RANKS_positions :
  (forall (k : string) (v : Z),
     RANKS !! k = Some v <->
     exists i : nat, str_iter RANKS_STR !! i = Some k /\ v = (9 + Z.of_nat i)%Z) /\
  (forall (k1 k2 : string) (v : Z),
     RANKS !! k1 = Some v -> RANKS !! k2 = Some v -> k1 = k2) /\
  (forall v : Z, (9 <= v <= 14)%Z -> exists k : string, RANKS !! k = Some v) /\
  size RANKS = 6.
Proof.
  assert (forall k v, RANKS !! k = Some v ->
            exists i : nat, str_iter RANKS_STR !! i = Some k /\ v = (9 + Z.of_nat i)%Z)
    as Hpos.
  { intros k v Hk. pose proof (RANKS_lookup_Some k v Hk) as Hin.
    token_cases Hin; vm_compute in Hk; injection Hk as <-;
      [by exists 0 | by exists 1 | by exists 2 | by exists 3 | by exists 4 | by exists 5]. }
  split; [| split; [| split]].
  - intros k v. split; [apply Hpos |].
    intros (i & Hi & ->).
    destruct i as [| [| [| [| [| [| i]]]]]]; vm_compute in Hi;
      try discriminate Hi; injection Hi as <-; by vm_compute.
  - intros k1 k2 v (i1 & H1 & ->)%Hpos (i2 & H2 & Heq)%Hpos.
    assert (i1 = i2) as -> by lia. congruence.
  - intros v Hv.
    assert (v = 9 \/ v = 10 \/ v = 11 \/ v = 12 \/ v = 13 \/ v = 14)%Z
      as [-> | [-> | [-> | [-> | [-> | ->]]]]] by lia;
      [by exists "9" | by exists "T" | by exists "J" | by exists "Q"
      | by exists "K" | by exists "A"].
  - by vm_compute.
Qed.

(** X8: [SUITS] maps the character at position [i] of "CDHS" to the
    suit of value [i + 1] and has no other key; every suit has exactly one
    token. *)
Theorem SUITS_positions :
  (forall (k : string) (s : Suit.t),
     SUITS !! k = Some s <->
     exists i : nat, str_iter SUITS_STR !! i = Some k /\ Suit.value s = (Z.of_nat i + 1)%Z) /\
  (forall s : Suit.t,
     exists k : string, SUITS !! k = Some s /\
       forall k' : string, SUITS !! k' = Some s -> k' = k) /\
  size SUITS = 4.
Proof.
  assert (forall k s, SUITS !! k = Some s ->
            exists i : nat, str_iter SUITS_STR !! i = Some k /\
              Suit.value s = (Z.of_nat i + 1)%Z) as Hpos.
  { intros k s Hk. pose proof (SUITS_lookup_Some k s Hk) as Hin.
    token_cases Hin; vm_compute in Hk; injection Hk as <-;
      [by exists 0 | by exists 1 | by exists 2 | by exists 3]. }
  split; [| split].
  - intros k s. split; [apply Hpos |].
    intros (i & Hi & Hv).
    destruct i as [| [| [| [| i]]]]; vm_compute in Hi;
      try discriminate Hi; injection Hi as <-;
      destruct s; cbn in Hv; try lia; by vm_compute.
  - intros s.
    exists (match s with
            | Suit.CLUBS => "C" | Suit.DIAMONDS => "D"
            | Suit.HEARTS => "H" | Suit.SPADES => "S"
            end).
    split; [by destruct s |].
    intros k' Hk'. pose proof (SUITS_lookup_Some k' s Hk') as Hin.
    token_cases Hin; vm_compute in Hk'; by injection Hk' as <-.
  - by vm_compute.
Qed.

(** X9: two suits have the same colour exactly when they are equal or
    their integer codes add up to 5 (CLUBS with SPADES, DIAMONDS with
    HEARTS): every suit has exactly one other suit of its colour. *)
Theorem Suit_same_color (s s' : Suit.t) :
  Suit.color s = Suit.color s' <->
  s = s' \/ (Suit.value s + Suit.value s' = 5)%Z.
Proof.
  destruct s, s'; cbn; split; intros H;
    first [ discriminate H | by left | by right
          | destruct H as [H | H]; first [discriminate H | done | lia] ].
Qed.

(** ** Decks and the store *)

Lemma imported_catalogue_build (catalogue : list Card.t) :
  build_DECK_CARDS = Ok catalogue -> catalogue = imported_catalogue.
Proof. intros Hb. unfold imported_catalogue. by rewrite Hb. Qed.

(** X10: [Deck.new] returns a list object that did not exist before and
    changes no list that did: the store grows by exactly that one list, and
    assigning to an item of the new deck's list leaves the catalogue as it
    was. *)
Theorem Deck_new_fresh (st : state) (catalogue : list Card.t) :
  heap st !! DECK_CARDS = Some catalogue ->
  exists (d : Deck.t) (st' : state),
    Deck.new st = (Ok d, st') /\
    heap st !! Deck.cards d = None /\
    length (heap st') = S (length (heap st)) /\
    (forall (l : loc) (xs : list Card.t),
       heap st !! l = Some xs -> heap st' !! l = Some xs /\ l <> Deck.cards d) /\
    (forall (i : nat) (c : Card.t),
       i < length catalogue ->
       exists st2 : state,
         list_setitem (Deck.cards d) i c st' = (Ok tt, st2) /\
         deref DECK_CARDS st2 = (Ok catalogue, st2)).
Proof.
  intros Hcat.
  destruct (Deck_new_run st catalogue Hcat) as (cs & g & Hnew & Hperm).
  pose proof (lookup_lt_Some _ _ _ Hcat) as Hlt.
  eexists _, _. split; [exact Hnew |]. cbn.
  split; [by apply lookup_ge_None_2 |].
  split; [rewrite length_app; cbn; lia |].
  split.
  - intros l xs Hl. split; [by apply lookup_app_l_Some |].
    apply lookup_lt_Some in Hl. lia.
  - intros i c Hi.
    eexists. split.
    + apply (list_setitem_run _ _ cs); [by apply list_lookup_middle |].
      by rewrite (Permutation_length Hperm).
    + apply deref_run. cbn.
      rewrite list_lookup_insert_ne by (unfold DECK_CARDS in *; lia).
      by apply lookup_app_l_Some.
Qed.

Lemma Deck_new_fresh_witness :
  exists (d : Deck.t) (st' : state),
    Deck.new (imported_state (fun k => 3 * k)) = (Ok d, st') /\
    heap (imported_state (fun k => 3 * k)) !! Deck.cards d = None /\
    length (heap st') = S (length (heap (imported_state (fun k => 3 * k)))) /\
    (forall (l : loc) (xs : list Card.t),
       heap (imported_state (fun k => 3 * k)) !! l = Some xs ->
       heap st' !! l = Some xs /\ l <> Deck.cards d) /\
    (forall (i : nat) (c : Card.t),
       i < length imported_catalogue ->
       exists st2 : state,
         list_setitem (Deck.cards d) i c st' = (Ok tt, st2) /\
         deref DECK_CARDS st2 = (Ok imported_catalogue, st2)).
Proof.
  apply (Deck_new_fresh (imported_state (fun k => 3 * k)) imported_catalogue).
  reflexivity.
Defined.

(** X11: a new deck holds every card that can be constructed exactly
    once: its list has no repeated card, and a card is in it if and only if
    some call of [Card.from_pair] returns that card. *)
Theorem Deck_new_every_card_once (st : state) (catalogue : list Card.t) :
  build_DECK_CARDS = Ok catalogue ->
  heap st !! DECK_CARDS = Some catalogue ->
  exists (d : Deck.t) (st' : state) (cs : list Card.t),
    Deck.new st = (Ok d, st') /\
    deref (Deck.cards d) st' = (Ok cs, st') /\
    NoDup cs /\
    forall c : Card.t, c ∈ cs <-> exists card : pyseq, Card.from_pair card = Ok c.
Proof.
  intros Hbuild Hcat.
  destruct (build_DECK_CARDS_distinct _ Hbuild) as [_ Hnodup].
  apply imported_catalogue_build in Hbuild as ->.
  destruct (Deck_new_run st _ Hcat) as (cs & g & Hnew & Hperm).
  eexists _, _, cs. split; [exact Hnew |].
  split; [apply deref_run; cbn; by apply list_lookup_middle |].
  split.
  - apply (NoDup_fmap_1 card_key). by rewrite Hperm.
  - intros c. rewrite Hperm. split.
    + intros Hc. exists (PyStr (Card.__str__ c)). by apply catalogue_from_pair_str.
    + intros [card Hc]. by eapply Card_from_pair_catalogue.
Qed.

Lemma Deck_new_every_card_once_witness :
  exists (d : Deck.t) (st' : state) (cs : list Card.t),
    Deck.new (imported_state (fun k => k * k)) = (Ok d, st') /\
    deref (Deck.cards d) st' = (Ok cs, st') /\
    NoDup cs /\
    forall c : Card.t, c ∈ cs <-> exists card : pyseq, Card.from_pair card = Ok c.
Proof.
  apply (Deck_new_every_card_once (imported_state (fun k => k * k)) imported_catalogue);
    reflexivity.
Defined.

(** X12: [Deck(cards)] does not copy: the deck and the caller share one
    list, so after an item of the deck's list is assigned the caller's list
    reads the new card at that index, and the deck prints the updated
    list. *)
Theorem Deck_shares_list (st : state) (l : loc) (cs : list Card.t) (i : nat) (c : Card.t) :
  heap st !! l = Some cs ->
  i < length cs ->
  exists st' : state,
    list_setitem (Deck.cards (Deck.__init__ l)) i c st = (Ok tt, st') /\
    list_getitem l i st' = (Ok c, st') /\
    deref l st' = (Ok (<[i := c]> cs), st') /\
    Deck.__str__ (Deck.__init__ l) st' =
      (Ok (String.concat ", " (Card.__str__ <$> <[i := c]> cs)), st') /\
    Deck.__repr__ (Deck.__init__ l) st' =
      (Ok ("<Deck(" ++ String.concat ", " (Card.__str__ <$> <[i := c]> cs) ++ ")>"), st').
Proof.
  intros Hl Hi.
  pose proof (lookup_lt_Some _ _ _ Hl) as Hlt.
  eexists. split; [by apply (list_setitem_run st l cs) |].
  set (st' := {| heap := <[l := <[i := c]> cs]> (heap st); rng := rng st |}).
  assert (heap st' !! l = Some (<[i := c]> cs)) as Hl'
    by (cbn; by apply list_lookup_insert_eq).
  assert (Deck.__str__ (Deck.__init__ l) st' =
            (Ok (String.concat ", " (Card.__str__ <$> <[i := c]> cs)), st')) as Hstr.
  { unfold Deck.__str__. by rewrite (M_bind_Ok _ _ _ _ _ (deref_run st' _ _ Hl')). }
  split; [| split; [by apply deref_run | split; [done |]]].
  - apply (list_getitem_run st' l (<[i := c]> cs)); [done |].
    by apply list_lookup_insert_eq.
  - unfold Deck.__repr__. by rewrite (M_bind_Ok _ _ _ _ _ Hstr).
Qed.

Lemma Deck_shares_list_witness :
  exists st' : state,
    list_setitem (Deck.cards (Deck.__init__ 0)) 1 (Card.mk 13 Suit.SPADES "KS") example_state =
      (Ok tt, st') /\
    list_getitem 0 1 st' = (Ok (Card.mk 13 Suit.SPADES "KS"), st') /\
    deref 0 st' =
      (Ok (<[1 := Card.mk 13 Suit.SPADES "KS"]>
             [Card.mk 14 Suit.HEARTS "AH"; Card.mk 9 Suit.CLUBS "9C";
              Card.mk 10 Suit.DIAMONDS "TD"]), st') /\
    Deck.__str__ (Deck.__init__ 0) st' =
      (Ok (String.concat ", "
             (Card.__str__ <$> <[1 := Card.mk 13 Suit.SPADES "KS"]>
                [Card.mk 14 Suit.HEARTS "AH"; Card.mk 9 Suit.CLUBS "9C";
                 Card.mk 10 Suit.DIAMONDS "TD"])), st') /\
    Deck.__repr__ (Deck.__init__ 0) st' =
      (Ok ("<Deck(" ++ String.concat ", "
             (Card.__str__ <$> <[1 := Card.mk 13 Suit.SPADES "KS"]>
                [Card.mk 14 Suit.HEARTS "AH"; Card.mk 9 Suit.CLUBS "9C";
                 Card.mk 10 Suit.DIAMONDS "TD"]) ++ ")>"), st').
Proof.
  apply (Deck_shares_list example_state 0); [reflexivity | cbn; lia].
Defined.

(** ** Hands *)

Lemma Hand_from_str_inv (st st' : state) (tokens : list pyseq) (h : Hand.t) :
  Hand.from_str tokens st = (Ok h, st') ->
  exists cs : list Card.t,
    list_comp Card.from_pair tokens = Ok cs /\
    h = Hand.mk (length (heap st)) /\
    st' = {| heap := heap st ++ [cs]; rng := rng st |}.
Proof.
  intros Hrun.
  destruct (list_comp Card.from_pair tokens) as [cs | e] eqn:Hcs.
  - rewrite (Hand_from_str_Ok st tokens cs Hcs) in Hrun.
    injection Hrun as <- <-. by exists cs.
  - by rewrite (Hand_from_str_Raise st tokens e Hcs) in Hrun.
Qed.

Lemma Hand_repr_run (st : state) (h : Hand.t) (cs : list Card.t) :
  heap st !! Hand.cards h = Some cs ->
  Hand.__repr__ h st =
    (Ok ("<Hand(" ++ String.concat ", " (Card.__str__ <$> cs) ++ ")>"), st).
Proof.
  intros Hh. unfold Hand.__repr__.
  by rewrite (M_bind_Ok _ _ _ _ _ (Hand_str_run st h cs Hh)).
Qed.

(** X13: parsing a hand and printing it gives back the input: if
    [Hand.from_str] succeeds on a list of strings, the hand prints as those
    strings joined by ", " and its [repr] wraps that text as
    [<Hand(..)>]. *)
Theorem Hand_parse_then_print (st st' : state) (ss : list string) (h : Hand.t) :
  Hand.from_str (PyStr <$> ss) st = (Ok h, st') ->
  Hand.__str__ h st' = (Ok (String.concat ", " ss), st') /\
  Hand.__repr__ h st' = (Ok ("<Hand(" ++ String.concat ", " ss ++ ")>"), st').
Proof.
  intros (cs & Hcs & -> & ->)%Hand_from_str_inv.
  assert (Card.__str__ <$> cs = ss) as Htext.
  { apply list_comp_Ok, Forall2_fmap_l in Hcs.
    induction Hcs as [| s c ss cs Hc _ IH]; [done |].
    cbn. by rewrite (Card_from_pair_str_text s c Hc), IH. }
  assert (heap {| heap := heap st ++ [cs]; rng := rng st |}
            !! Hand.cards (Hand.mk (length (heap st))) = Some cs) as Hl
    by (cbn; by apply list_lookup_middle).
  split.
  - rewrite (Hand_str_run _ _ cs Hl). by rewrite Htext.
  - rewrite (Hand_repr_run _ _ cs Hl). by rewrite Htext.
Qed.

Lemma Hand_parse_then_print_witness :
  Hand.__str__ (Hand.mk 1)
      {| heap := heap example_state ++
                   [[Card.mk 11 Suit.HEARTS "JH"; Card.mk 14 Suit.SPADES "AS"]];
         rng := rng example_state |} =
    (Ok (String.concat ", " ["JH"; "AS"]),
     {| heap := heap example_state ++
                  [[Card.mk 11 Suit.HEARTS "JH"; Card.mk 14 Suit.SPADES "AS"]];
        rng := rng example_state |}) /\
  Hand.__repr__ (Hand.mk 1)
      {| heap := heap example_state ++
                   [[Card.mk 11 Suit.HEARTS "JH"; Card.mk 14 Suit.SPADES "AS"]];
         rng := rng example_state |} =
    (Ok ("<Hand(" ++ String.concat ", " ["JH"; "AS"] ++ ")>"),
     {| heap := heap example_state ++
                  [[Card.mk 11 Suit.HEARTS "JH"; Card.mk 14 Suit.SPADES "AS"]];
        rng := rng example_state |}).
Proof.
  apply (Hand_parse_then_print example_state _ ["JH"; "AS"]). reflexivity.
Defined.

(** X14: a bare string is not a list of tokens: iterating it yields
    single characters, so for every non-empty string [Hand.from_str] raises
    [ValueError] reporting length 1 at its first character and leaves the
    store as it was. *)
Theorem Hand_from_bare_string (st : state) (s : string) :
  s <> "" ->
  Hand.from_str (PyStr <$> str_iter s) st =
    (Raise (ValueError "Expects card to be two items; got 1"), st).
Proof.
  intros Hs. destruct s as [| c s']; [done |].
  apply Hand_from_str_Raise. reflexivity.
Qed.

Lemma Hand_from_bare_string_witness :
  Hand.from_str (PyStr <$> str_iter "9C") example_state =
    (Raise (ValueError "Expects card to be two items; got 1"), example_state).
Proof. apply (Hand_from_bare_string example_state "9C"). discriminate. Defined.

(** X15: [Hand.from_str] validates nothing but the individual tokens: it
    succeeds exactly when [Card.from_pair] succeeds on every token, whatever
    their number and whether or not cards repeat, and the hand then has one
    card per token. *)
Theorem Hand_from_str_succeeds_iff (st : state) (tokens : list pyseq) :
  ((exists (h : Hand.t) (st' : state), Hand.from_str tokens st = (Ok h, st')) <->
   Forall (fun t => exists c : Card.t, Card.from_pair t = Ok c) tokens) /\
  (forall (h : Hand.t) (st' : state),
     Hand.from_str tokens st = (Ok h, st') ->
     exists cs : list Card.t,
       deref (Hand.cards h) st' = (Ok cs, st') /\ length cs = length tokens) /\
  (forall (h : Hand.t) (st' : state),
     Hand.from_str tokens st = (Ok h, st') ->
     exists (h2 : Hand.t) (st2 : state) (cs : list Card.t),
       Hand.from_str (tokens ++ tokens)%list st' = (Ok h2, st2) /\
       deref (Hand.cards h) st2 = (Ok cs, st2) /\
       deref (Hand.cards h2) st2 = (Ok (cs ++ cs)%list, st2)).
Proof.
  split; [| split].
  - split.
    + intros (h & st' & (cs & Hcs & _)%Hand_from_str_inv).
      apply list_comp_Ok in Hcs.
      induction Hcs as [| t c tokens cs Hc _ IH]; constructor; eauto.
    + intros Hall.
      assert (exists cs, list_comp Card.from_pair tokens = Ok cs) as [cs Hcs].
      { induction Hall as [| t tokens [c Hc] _ [cs IH]]; [by exists [] |].
        exists (c :: cs). cbn. by rewrite Hc, IH. }
      eexists _, _. by apply Hand_from_str_Ok.
  - intros h st' (cs & Hcs & -> & ->)%Hand_from_str_inv.
    exists cs. split.
    + apply deref_run. cbn. by apply list_lookup_middle.
    + apply list_comp_Ok in Hcs. symmetry. by eapply Forall2_length.
  - intros h st' (cs & Hcs & -> & ->)%Hand_from_str_inv.
    assert (list_comp Card.from_pair (tokens ++ tokens)%list = Ok (cs ++ cs)%list)
      as Hcs2.
    { apply list_comp_Ok. apply list_comp_Ok in Hcs. by apply Forall2_app. }
    eexists _, _, cs. split; [by apply Hand_from_str_Ok |].
    split; apply deref_run; cbn.
    + apply lookup_app_l_Some. by apply list_lookup_middle.
    + apply list_lookup_middle. by rewrite length_app, Nat.add_comm.
Qed.

Lemma Hand_from_str_succeeds_iff_witness :
  (exists cs : list Card.t,
     deref (Hand.cards (Hand.mk 1))
       {| heap := heap example_state ++ [[Card.mk 9 Suit.CLUBS "9C"]];
          rng := rng example_state |} =
       (Ok cs, {| heap := heap example_state ++ [[Card.mk 9 Suit.CLUBS "9C"]];
                  rng := rng example_state |}) /\
     length cs = length [PyStr "9C"]) /\
  exists (h2 : Hand.t) (st2 : state) (cs : list Card.t),
    Hand.from_str ([PyStr "9C"] ++ [PyStr "9C"])%list
      {| heap := heap example_state ++ [[Card.mk 9 Suit.CLUBS "9C"]];
         rng := rng example_state |} = (Ok h2, st2) /\
    deref (Hand.cards (Hand.mk 1)) st2 = (Ok cs, st2) /\
    deref (Hand.cards h2) st2 = (Ok (cs ++ cs)%list, st2).
Proof.
  split.
  - apply (proj1 (proj2 (Hand_from_str_succeeds_iff example_state [PyStr "9C"]))).
    reflexivity.
  - apply (proj2 (proj2 (Hand_from_str_succeeds_iff example_state [PyStr "9C"]))).
    reflexivity.
Defined.

(** X16: [Hand.from_str] never draws from the random source and never
    changes a list already in the store; when it succeeds it adds exactly
    one list, which no earlier reference points to, and when it raises it
    adds none. *)
Theorem Hand_from_str_frame (st st' : state) (tokens : list pyseq) (r : result Hand.t) :
  Hand.from_str tokens st = (r, st') ->
  rng st' = rng st /\
  (forall (l : loc) (xs : list Card.t),
     heap st !! l = Some xs -> heap st' !! l = Some xs) /\
  match r with
  | Ok h =>
      heap st !! Hand.cards h = None /\
      length (heap st') = S (length (heap st))
  | Raise _ => st' = st
  end.
Proof.
  intros Hrun. destruct r as [h | e].
  - apply Hand_from_str_inv in Hrun as (cs & _ & -> & ->). cbn.
    split; [done |]. split; [intros l xs Hl; by apply lookup_app_l_Some |].
    split; [by apply lookup_ge_None_2 | rewrite length_app; cbn; lia].
  - destruct (list_comp Card.from_pair tokens) as [cs | e'] eqn:Hcs.
    + by rewrite (Hand_from_str_Ok st tokens cs Hcs) in Hrun.
    + rewrite (Hand_from_str_Raise st tokens e' Hcs) in Hrun.
      by injection Hrun as _ <-.
Qed.

Lemma Hand_from_str_frame_witness :
  rng {| heap := heap example_state ++ [[Card.mk 9 Suit.CLUBS "9C"]];
         rng := rng example_state |} = rng example_state /\
  (forall (l : loc) (xs : list Card.t),
     heap example_state !! l = Some xs ->
     heap {| heap := heap example_state ++ [[Card.mk 9 Suit.CLUBS "9C"]];
             rng := rng example_state |} !! l = Some xs) /\
  heap example_state !! Hand.cards (Hand.mk 1) = None /\
  length (heap {| heap := heap example_state ++ [[Card.mk 9 Suit.CLUBS "9C"]];
                  rng := rng example_state |}) = S (length (heap example_state)).
Proof.
  apply (Hand_from_str_frame example_state _ [PyStr "9C"] (Ok (Hand.mk 1))).
  reflexivity.
Defined.

(** ** Every ordering can be shuffled *)

Section shuffle_reach.
Variable x : loc.

(** One round of the loop, as an equation. *)
Lemma shuffle_loop_step (i : nat) (indices : list nat) (st : state)
    (xs : list Card.t) (xi xj : Card.t) :
  heap st !! x = Some xs ->
  xs !! i = Some xi ->
  xs !! (rng st 0 mod (i + 1)) = Some xj ->
  shuffle_loop x (i :: indices) st =
    shuffle_loop x indices
      {| heap := <[x := <[rng st 0 mod (i + 1) := xi]> (<[i := xj]> xs)]> (heap st);
         rng := fun k => rng st (S k) |}.
Proof.
  intros Hx Hxi Hxj.
  pose (j := rng st 0 mod (i + 1)).
  pose (st1 := {| heap := heap st; rng := fun k => rng st (S k) |}).
  pose (xs2 := <[i := xj]> xs).
  pose (st2 := {| heap := <[x := xs2]> (heap st1); rng := rng st1 |}).
  pose proof (lookup_lt_Some _ _ _ Hx) as Hlt.
  pose proof (lookup_lt_Some _ _ _ Hxi) as Hi.
  pose proof (lookup_lt_Some _ _ _ Hxj) as Hj.
  cbn [shuffle_loop].
  rewrite (M_bind_Ok _ _ st st1 j) by reflexivity.
  rewrite (M_bind_Ok _ _ st1 st1 xj) by (by apply list_getitem_run with xs).
  rewrite (M_bind_Ok _ _ st1 st1 xi) by (by apply list_getitem_run with xs).
  rewrite (M_bind_Ok _ _ st1 st2 tt) by (by apply list_setitem_run).
  erewrite (M_bind_Ok _ _ st2 _ tt).
  2: { apply (list_setitem_run st2 x xs2); [cbn; by apply list_lookup_insert_eq |].
       unfold xs2. by rewrite length_insert. }
  cbn. by rewrite list_insert_insert_eq.
Qed.

(** With the items beyond index [m] already in place, the rounds for the
    indices [m], ..., 1 can produce any arrangement of the first [m + 1]
    items. *)
Lemma shuffle_loop_reach (m : nat) :
  forall (h : list (list Card.t)) (xs ys : list Card.t),
    h !! x = Some xs ->
    m = 0 \/ m < length xs ->
    length xs = length ys ->
    take (S m) xs ≡ₚ take (S m) ys ->
    drop (S m) xs = drop (S m) ys ->
    exists draws g : nat -> nat,
      shuffle_loop x (reverse (seq 1 m)) {| heap := h; rng := draws |} =
        (Ok tt, {| heap := <[x := ys]> h; rng := g |}).
Proof.
  induction m as [| m IH]; intros h xs ys Hx Hm Hlen Htake Hdrop.
  - exists (fun _ => 0), (fun _ => 0). cbn.
    assert (xs = ys) as <-.
    { destruct xs as [| a xs], ys as [| b ys]; try done.
      cbn in Htake, Hdrop. rewrite ?take_0, ?drop_0 in *.
      apply Permutation_singleton_inj in Htake. congruence. }
    by rewrite list_insert_id.
  - destruct Hm as [Hm | Hm]; [done |].
    set (i := S m) in *.
    destruct (lookup_lt_is_Some_2 xs i Hm) as [xi Hxi].
    destruct (lookup_lt_is_Some_2 ys i ltac:(lia)) as [y Hy].
    assert (y ∈ take (S i) xs) as [j Hj]%list_elem_of_lookup.
    { rewrite Htake. apply (list_elem_of_lookup_2 _ i).
      by rewrite lookup_take_lt by lia. }
    assert (j < S i) as Hji.
    { apply lookup_lt_Some in Hj. rewrite length_take in Hj. lia. }
    rewrite lookup_take_lt in Hj by done.
    pose (xs2 := <[j := xi]> (<[i := y]> xs)).
    assert (length xs2 = length xs) as Hlen2
      by (unfold xs2; by rewrite !length_insert).
    assert (xs2 !! i = Some y) as Hy2.
    { unfold xs2. destruct (decide (j = i)) as [-> | Hne].
      - rewrite list_lookup_insert_eq by (rewrite length_insert; lia). congruence.
      - rewrite list_lookup_insert_ne by done.
        by rewrite list_lookup_insert_eq by lia. }
    assert (take (S i) xs2 ≡ₚ take (S i) xs) as Hperm2.
    { unfold xs2. rewrite !take_insert_lt by lia.
      apply Permutation_insert_swap; by rewrite lookup_take_lt by lia. }
    destruct (IH (<[x := xs2]> h) xs2 ys) as (draws' & g & Hrun).
    + apply list_lookup_insert_eq. by eapply lookup_lt_Some.
    + right. lia.
    + lia.
    + apply (Permutation_app_inv_r [y]).
      rewrite <- (take_S_r xs2 i y Hy2), <- (take_S_r ys i y Hy).
      by rewrite Hperm2.
    + rewrite (drop_S xs2 y i Hy2), (drop_S ys y i Hy). f_equal.
      unfold xs2. rewrite !drop_insert_lt by lia. exact Hdrop.
    + exists (fun k => match k with 0 => j | S k' => draws' k' end), g.
      change (seq 1 i) with (seq 1 (S m)). rewrite seq_S, reverse_snoc.
      assert (j mod (1 + m + 1) = j) as Hmod by (apply Nat.mod_small; lia).
      rewrite list_insert_insert_eq in Hrun.
      rewrite (shuffle_loop_step (1 + m) _ _ xs xi y);
        [| exact Hx | exact Hxi | cbn [rng]; by rewrite Hmod].
      cbn [heap rng]. rewrite Hmod. exact Hrun.
Qed.

Lemma random_shuffle_reach (h : list (list Card.t)) (xs ys : list Card.t) :
  h !! x = Some xs ->
  ys ≡ₚ xs ->
  exists draws g : nat -> nat,
    random_shuffle x {| heap := h; rng := draws |} =
      (Ok tt, {| heap := <[x := ys]> h; rng := g |}).
Proof.
  intros Hx Hperm.
  pose proof (Permutation_length Hperm) as Hlen.
  destruct (shuffle_loop_reach (length xs - 1) h xs ys) as (draws & g & Hrun);
    [done | lia | lia | | |].
  - rewrite !take_ge by lia. by symmetry.
  - by rewrite !drop_ge by lia.
  - exists draws, g. unfold random_shuffle.
    by rewrite (M_bind_Ok _ _ _ _ _
                  (list_len_run {| heap := h; rng := draws |} x xs Hx)).
Qed.
End shuffle_reach.

(** X17: [Deck.new] can deal every ordering: for every arrangement of
    the catalogue there are draws of the random source for which the new
    deck holds the cards in exactly that order. *)
Theorem Deck_new_reaches_every_order
    (h : list (list Card.t)) (catalogue cs : list Card.t) :
  h !! DECK_CARDS = Some catalogue ->
  cs ≡ₚ catalogue ->
  exists (draws : nat -> nat) (d : Deck.t) (st' : state),
    Deck.new {| heap := h; rng := draws |} = (Ok d, st') /\
    deref (Deck.cards d) st' = (Ok cs, st') /\
    deref DECK_CARDS st' = (Ok catalogue, st').
Proof.
  intros Hcat Hperm.
  destruct (random_shuffle_reach (length h) (h ++ [catalogue]) catalogue cs)
    as (draws & g & Hrun); [by apply list_lookup_middle | done |].
  exists draws, (Deck.mk (length h)), {| heap := h ++ [cs]; rng := g |}.
  split; [| split].
  - unfold Deck.new.
    rewrite (M_bind_Ok _ _ _ _ _
               (list_copy_run {| heap := h; rng := draws |} _ _ Hcat)).
    cbn [heap rng]. rewrite (M_bind_Ok _ _ _ _ _ Hrun). cbn.
    by rewrite insert_app_r_alt, Nat.sub_diag.
  - apply deref_run. cbn. by apply list_lookup_middle.
  - apply deref_run. cbn. by apply lookup_app_l_Some.
Qed.

Lemma Deck_new_reaches_every_order_witness :
  exists (draws : nat -> nat) (d : Deck.t) (st' : state),
    Deck.new {| heap := [imported_catalogue]; rng := draws |} = (Ok d, st') /\
    deref (Deck.cards d) st' = (Ok (reverse imported_catalogue), st') /\
    deref DECK_CARDS st' = (Ok imported_catalogue, st').
Proof.
  apply (Deck_new_reaches_every_order [imported_catalogue] imported_catalogue
           (reverse imported_catalogue)).
  - reflexivity.
  - apply reverse_Permutation.
Defined.

(** ** The length reported by [ValueError] *)

Lemma Card_from_pair_ValueError_inv (card : pyseq) (msg : string) :
  Card.from_pair card = Raise (ValueError msg) ->
  len card <> 2 /\
  msg = "Expects card to be two items; got " ++ pretty (len card).
Proof.
  unfold Card.from_pair. case_decide as Hne.
  - by intros [= <-].
  - destruct (unpack card) as [| rank [| suit [| extra rest]]]; try done.
    pose proof (Card_init_cases rank suit) as Hc.
    destruct (RANKS !! rank); [destruct (SUITS !! suit) |]; by rewrite Hc.
Qed.

(** X18: the message of the [ValueError] raised by [Card.from_pair]
    identifies the observed length: two arguments rejected with the same
    message have the same number of items, and that number is not 2. *)
Theorem Card_from_pair_length_detail (a b : pyseq) (msg : string) :
  Card.from_pair a = Raise (ValueError msg) ->
  Card.from_pair b = Raise (ValueError msg) ->
  len a = len b /\ len a <> 2.
Proof.
  intros [Ha ->]%Card_from_pair_ValueError_inv [Hb Heq]%Card_from_pair_ValueError_inv.
  split; [| done].
  apply (inj (String.app _)) in Heq. by apply (inj pretty) in Heq.
Qed.

Lemma Card_from_pair_length_detail_witness :
  len (PyStr "AHC") = len (PyTuple ["9"; "T"; "J"]) /\ len (PyStr "AHC") <> 2.
Proof.
  apply (Card_from_pair_length_detail (PyStr "AHC") (PyTuple ["9"; "T"; "J"])
           "Expects card to be two items; got 3"); reflexivity.
Defined.
